(** * Popup placement (mapbox-gl-js, [ui/popup.js])

    A shallow embedding of the [Popup] widget: offset normalisation,
    automatic anchor selection, and the DOM life cycle of the widget
    ([addTo], [remove], [setLngLat], [setDOMContent], [_update]).

    Conventions of the embedding.
    - A JavaScript number is an exact rational ([Q]); [Math.round] and
      [Math.sqrt] are given their mathematical meaning, rounding of the
      IEEE-754 representation is ignored.
    - A JavaScript object used as a dictionary (the per-anchor offset
      mapping) is a [gmap string _]; the nine-key object literal returned
      by [normalizeOffset] is a record with one field per key and a
      string-indexed getter.
    - An optional field ([this._map], [this._content], ...) is an
      [option]; [delete this.f] stores [None].
    - A method is a function from the state before the call to a
      completion: normal, or abrupt (a thrown exception), each with the
      state the call left behind. *)

From Stdlib Require Import ZArith QArith Qround Qabs Lia Lra Reals Qreals.
From Stdlib Require Import String Ascii List.
From stdpp Require Import base option gmap strings.

Import ListNotations.
Local Open Scope Q_scope.
Local Open Scope string_scope.

(** ** Numbers *)

Module Num.

(** [a < b] on numbers, as a boolean. *)
Definition ltb (a b : Q) : bool := negb (Qle_bool b a).

(** [a > b]. *)
Definition gtb (a b : Q) : bool := ltb b a.

(** Truthiness of a number: every number but zero. *)
Definition truthy (a : Q) : bool := negb (Qeq_bool a 0).

(** [Math.round]: the nearest integer, a tie going up. *)
Definition Math_round (a : Q) : Z := Qfloor (a + (1 # 2)).

(** [Math.round(Math.sqrt(0.5 * Math.pow(r, 2)))], computed exactly.
    For [r = n/d] the square root is [sqrt(2 n^2) / (2 d)], and adding an
    integer to a real number commutes with taking its integer part, so
    the rounded value is [(floor(sqrt(2 n^2)) + d) / (2 d)] rounded down.
    [round_sqrt_half_sq_real] below relates this to the real square
    root. *)
Definition round_sqrt_half_sq (r : Q) : Z :=
  let n := Qnum r in
  let d := Zpos (Qden r) in
  ((Z.sqrt (2 * (n * n)) + d) / (2 * d))%Z.

End Num.

(** ** Points ([@mapbox/point-geometry]) *)

Record Point : Type := mkPoint { x : Q; y : Q }.

(** [Point | [number, number]] *)
Inductive PointLike : Type :=
| PL_Point (p : Point)
| PL_Array (a0 a1 : Q).

Module PointM.

(** [Point.convert] *)
Definition convert (a : PointLike) : Point :=
  match a with
  | PL_Point p => p
  | PL_Array a0 a1 => mkPoint a0 a1
  end.

(** [p.add(q)] *)
Definition add (p q : Point) : Point := mkPoint (x p + x q) (y p + y q).

(** [p.round()] *)
Definition round (p : Point) : Point :=
  mkPoint (inject_Z (Num.Math_round (x p))) (inject_Z (Num.Math_round (y p))).

(** The point reflected through the origin; used to state symmetry. *)
Definition neg (p : Point) : Point := mkPoint (- x p) (- y p).

End PointM.

(** ** Offsets *)

(** [Offset = number | PointLike | {[Anchor]: PointLike}] *)
Inductive Offset : Type :=
| Offset_number (r : Q)
| Offset_point (p : PointLike)
| Offset_map (m : gmap string PointLike).

(** The object literal that [normalizeOffset] returns. *)
Record OffsetTable : Type := mkOffsetTable {
  center : Point;
  top : Point;
  top_left : Point;
  top_right : Point;
  bottom : Point;
  bottom_left : Point;
  bottom_right : Point;
  left : Point;
  right : Point
}.

(** The nine anchor names, in the order of the object literal. *)
Definition anchor_names : list string :=
  ["center"; "top"; "top-left"; "top-right"; "bottom"; "bottom-left";
   "bottom-right"; "left"; "right"].

(** What reading a key of an object literal gives: the literal's own
    entry; else what [Object.prototype] has under that name ([constructor],
    [toString], ...: a function or an object, never a point); else
    [undefined]. *)
Inductive Property : Type :=
| own (p : Point)
| inherited
| undefined.

(** The own entries of the table: [None] when the literal has no such
    key (the lookup [offset[anchor]] then goes on to [Object.prototype],
    see [lookup_anchor]). *)
Definition table_get (t : OffsetTable) (anchor : string) : option Point :=
  if String.eqb anchor "center" then Some (center t)
  else if String.eqb anchor "top" then Some (top t)
  else if String.eqb anchor "top-left" then Some (top_left t)
  else if String.eqb anchor "top-right" then Some (top_right t)
  else if String.eqb anchor "bottom" then Some (bottom t)
  else if String.eqb anchor "bottom-left" then Some (bottom_left t)
  else if String.eqb anchor "bottom-right" then Some (bottom_right t)
  else if String.eqb anchor "left" then Some (left t)
  else if String.eqb anchor "right" then Some (right t)
  else None.

(** Third branch of [normalizeOffset]: one offset for all positions. *)
Definition normalizeOffset_all (convertedOffset : Point) : OffsetTable :=
  {| center := convertedOffset;
     top := convertedOffset;
     top_left := convertedOffset;
     top_right := convertedOffset;
     bottom := convertedOffset;
     bottom_left := convertedOffset;
     bottom_right := convertedOffset;
     left := convertedOffset;
     right := convertedOffset |}.

(** Second branch: a radius from which the offsets at all positions are
    calculated. *)
Definition normalizeOffset_radius (offset : Q) : OffsetTable :=
  let cornerOffset := inject_Z (Num.round_sqrt_half_sq offset) in
  {| center := mkPoint 0 0;
     top := mkPoint 0 offset;
     top_left := mkPoint cornerOffset cornerOffset;
     top_right := mkPoint (- cornerOffset) cornerOffset;
     bottom := mkPoint 0 (- offset);
     bottom_left := mkPoint cornerOffset (- cornerOffset);
     bottom_right := mkPoint (- cornerOffset) (- cornerOffset);
     left := mkPoint offset 0;
     right := mkPoint (- offset) 0 |}.

(** [offset[key] || [0, 0]]: a point or an array is always truthy. *)
Definition entry_or_zero (offset : gmap string PointLike) (key : string)
  : PointLike :=
  match offset !! key with
  | Some v => v
  | None => PL_Array 0 0
  end.

(** Fourth branch: an offset per position. *)
Definition normalizeOffset_map (offset : gmap string PointLike)
  : OffsetTable :=
  {| center := PointM.convert (entry_or_zero offset "center");
     top := PointM.convert (entry_or_zero offset "top");
     top_left := PointM.convert (entry_or_zero offset "top-left");
     top_right := PointM.convert (entry_or_zero offset "top-right");
     bottom := PointM.convert (entry_or_zero offset "bottom");
     bottom_left := PointM.convert (entry_or_zero offset "bottom-left");
     bottom_right := PointM.convert (entry_or_zero offset "bottom-right");
     left := PointM.convert (entry_or_zero offset "left");
     right := PointM.convert (entry_or_zero offset "right") |}.

(** [normalizeOffset(offset: ?Offset)].  The first branch ([!offset]: no
    offset, or the number zero) calls the function again on
    [new Point(0, 0)], which is an object and so reaches the third
    branch. *)
Definition normalizeOffset (offset : option Offset) : OffsetTable :=
  match offset with
  | None => normalizeOffset_all (PointM.convert (PL_Point (mkPoint 0 0)))
  | Some (Offset_number r) =>
      if Num.truthy r then normalizeOffset_radius r
      else normalizeOffset_all (PointM.convert (PL_Point (mkPoint 0 0)))
  | Some (Offset_point p) => normalizeOffset_all (PointM.convert p)
  | Some (Offset_map m) => normalizeOffset_map m
  end.

(** ** Automatic anchor selection (the [if (!anchor)] block of [_update]) *)

(** [anchorComponents.push(s)] *)
Definition push (anchorComponents : list string) (s : string) : list string :=
  anchorComponents ++ [s].

(** [pos] is the projected position, [offset] the normalised table,
    [width] and [height] the container's [offsetWidth] and [offsetHeight],
    [tr_width] and [tr_height] the view's [transform.width] and
    [transform.height]. *)
Definition autoAnchor (pos : Point) (offset : OffsetTable)
    (width height tr_width tr_height : Q) : string :=
  let anchorComponents :=
    if Num.ltb (y pos + y (bottom offset)) height then ["top"]
    else if Num.gtb (y pos) (tr_height - height) then ["bottom"]
    else [] in
  let anchorComponents :=
    if Num.ltb (x pos) (width / 2) then push anchorComponents "left"
    else if Num.gtb (x pos) (tr_width - width / 2)
         then push anchorComponents "right"
         else anchorComponents in
  if Nat.eqb (List.length anchorComponents) 0 then "bottom"
  else String.concat "-" anchorComponents.

(** The anchors the selection can produce. *)
Definition auto_anchors : list string :=
  ["top"; "bottom"; "left"; "right"; "top-left"; "top-right";
   "bottom-left"; "bottom-right"].

(** The selection in the words of the specification: a vertical
    component, a horizontal component, and their combination, with
    [bottom] when there is neither. *)
Module AnchorSpec.





End AnchorSpec.

(** ** Collaborators of the widget *)

(** [geo/lng_lat]: a geographic coordinate. *)
Record LngLat : Type := mkLngLat { lng : Q; lat : Q }.

(** The view the popup is added to ([ui/map], [geo/transform],
    [util/smart_wrap], [geo/lng_lat]).  These modules are not among the
    sources; the popup uses them through this interface only, and the
    interface is a parameter of all that follows. *)
Class View : Type := {
  Map : Type;
  Transform : Type;
  HTMLElement : Type;
  (** what [LngLat.convert] accepts or rejects *)
  LngLatLike : Type;
  (** [LngLat.convert(lnglat)]; [None] when it throws *)
  LngLat_convert : LngLatLike -> option LngLat;
  (** [map.transform] *)
  transform : Map -> Transform;
  (** [map.getContainer()] *)
  getContainer : Map -> HTMLElement;
  (** [map.project(lnglat)] *)
  project : Map -> LngLat -> Point;
  (** [transform.renderWorldCopies] *)
  renderWorldCopies : Transform -> bool;
  (** [transform.width] *)
  width : Transform -> Q;
  (** [transform.height] *)
  height : Transform -> Q;
  (** [smartWrap(lngLat, priorPos, transform)] *)
  smartWrap : LngLat -> option Point -> Transform -> LngLat
}.

(** The two bound methods the popup registers as listeners. *)
Inductive Handler : Type := H_update | H_onClickClose.

(** Calls the popup makes on event emitters: the view's [on] and [off],
    and its own [fire]. *)
Inductive Effect `{View} : Type :=
| map_on (map : Map) (type : string) (listener : Handler)
| map_off (map : Map) (type : string) (listener : Handler)
| fire (type : string).

(** ** The popup's DOM nodes *)

(** What [setText], [setHTML] and [setDOMContent] put into the content
    element, and the close button [_createContent] adds. *)
Inductive DomNode : Type :=
| CloseButton
| TextNode (text : string)
| Fragment (html : string)
| UserNode (id : nat).

(** [this._content]: [content_attached] tells whether the element is a
    child of the popup container (its only possible parent). *)
Record ContentEl : Type := mkContentEl {
  content_attached : bool;
  content_children : list DomNode
}.

(** The pixels of [translate(x px, y px)]: the coordinates of a rounded
    point, or NaN when what was added to the position is not a point. *)
Inductive Translation : Type :=
| translate (p : Point)
| translate_NaN.

(** The value [_update] passes to [DOM.setTransform]: the anchor's
    translation followed by [translate(x px, y px)]. *)
Record CssTransform : Type := mkCssTransform {
  css_anchor : string;
  css_translate : Translation
}.

(** [this._container] *)
Record ContainerEl `{View} : Type := mkContainerEl {
  container_parent : option HTMLElement;
  classList : list string;
  style_transform : option CssTransform
}.

Arguments mkContainerEl {_} _ _ _.

(** The browser's layout and the sibling module [ui/anchor], which is
    not among the sources either: parameters as well. *)
Class Browser `{View} : Type := {
  (** [container.offsetWidth], for the container and the content in it *)
  offsetWidth : ContainerEl -> ContentEl -> Z;
  (** [container.offsetHeight] *)
  offsetHeight : ContainerEl -> ContentEl -> Z;
  (** [anchorTranslate[anchor]] *)
  anchorTranslate : string -> string;
  (** the class list after [applyAnchorClass(element, anchor, prefix)] *)
  applyAnchorClass : list string -> string -> string -> list string;
  (** whether [Object.prototype] has a property of that name, which
      every object literal then inherits; none of them has [x] or [y] *)
  Object_prototype_has : string -> bool
}.

(** ** DOM helpers *)

Module DOM.

(** ASCII whitespace, which a class token must not contain. *)
Definition is_whitespace (c : ascii) : bool :=
  let n := nat_of_ascii c in
  (Nat.eqb n 9 || Nat.eqb n 10 || Nat.eqb n 12 || Nat.eqb n 13
   || Nat.eqb n 32)%bool.

Fixpoint has_whitespace (s : string) : bool :=
  match s with
  | EmptyString => false
  | String c s' => (is_whitespace c || has_whitespace s')%bool
  end.

(** [classList.add(token)]: [None] for the exception the DOM raises on
    an empty token or one with whitespace; no duplicate is added. *)
Definition classList_add (l : list string) (token : string)
  : option (list string) :=
  if String.eqb token "" then None
  else if has_whitespace token then None
  else if existsb (String.eqb token) l then Some l
  else Some (l ++ [token])%list.


(** [s.split(' ')] *)
Fixpoint split_space (s : string) : list string :=
  match s with
  | EmptyString => [""]
  | String c s' =>
      if Ascii.eqb c " "%char then "" :: split_space s'
      else match split_space s' with
           | h :: t => String c h :: t
           | [] => [String c ""]
           end
  end.

(** Modelled from the spec: [DOM.remove] of [util/dom], which is not
    among the sources (a removal utility; on detach the DOM nodes are
    released).  [DOM.remove(content)]: the element is taken out of its
    parent, if it has one. *)
Definition remove_content (c : ContentEl) : ContentEl :=
  mkContentEl false (content_children c).

(** [parent.appendChild(content)] *)
Definition attach_content (c : ContentEl) : ContentEl :=
  mkContentEl true (content_children c).

(** [content.appendChild(node)] *)
Definition content_appendChild (c : ContentEl) (n : DomNode) : ContentEl :=
  mkContentEl (content_attached c) (content_children c ++ [n])%list.

End DOM.

(** ** The widget *)

Section Popup.

Context {V : View} {B : Browser}.

(** The [options] argument of the constructor; [None] is a key left
    out. *)
Record PopupOptions : Type := mkPopupOptions {
  opt_closeButton : option bool;
  opt_closeOnClick : option bool;
  opt_anchor : option string;
  opt_offset : option Offset;
  opt_className : option string
}.

(** [this.options.f]: the key given to the constructor, or else the one
    of [defaultOptions], which is the prototype of [this.options]. *)
Definition closeButton (o : PopupOptions) : bool :=
  match opt_closeButton o with Some b => b | None => true end.

Definition closeOnClick (o : PopupOptions) : bool :=
  match opt_closeOnClick o with Some b => b | None => true end.

Definition className (o : PopupOptions) : string :=
  match opt_className o with Some c => c | None => "" end.

Definition anchor (o : PopupOptions) : option string := opt_anchor o.

Definition offset (o : PopupOptions) : option Offset := opt_offset o.

(** The fields of a [Popup] object, and in [effects] the calls it has
    made on event emitters, oldest first.  [_closeButton] and [_tip]
    tell whether the field holds an element. *)
Record Popup : Type := mkPopup {
  _map : option Map;
  options : PopupOptions;
  _content : option ContentEl;
  _container : option ContainerEl;
  _closeButton : bool;
  _tip : bool;
  _lngLat : option LngLat;
  _pos : option Point;
  effects : list Effect
}.

Definition set_map (m : option Map) (p : Popup) : Popup :=
  mkPopup m (options p) (_content p) (_container p) (_closeButton p)
          (_tip p) (_lngLat p) (_pos p) (effects p).

Definition set_content (c : option ContentEl) (p : Popup) : Popup :=
  mkPopup (_map p) (options p) c (_container p) (_closeButton p)
          (_tip p) (_lngLat p) (_pos p) (effects p).

Definition set_container (c : option ContainerEl) (p : Popup) : Popup :=
  mkPopup (_map p) (options p) (_content p) c (_closeButton p)
          (_tip p) (_lngLat p) (_pos p) (effects p).

Definition set_closeButton (b : bool) (p : Popup) : Popup :=
  mkPopup (_map p) (options p) (_content p) (_container p) b
          (_tip p) (_lngLat p) (_pos p) (effects p).

Definition set_tip (b : bool) (p : Popup) : Popup :=
  mkPopup (_map p) (options p) (_content p) (_container p) (_closeButton p)
          b (_lngLat p) (_pos p) (effects p).

Definition set_lngLat (l : option LngLat) (p : Popup) : Popup :=
  mkPopup (_map p) (options p) (_content p) (_container p) (_closeButton p)
          (_tip p) l (_pos p) (effects p).

Definition set_pos (q : option Point) (p : Popup) : Popup :=
  mkPopup (_map p) (options p) (_content p) (_container p) (_closeButton p)
          (_tip p) (_lngLat p) q (effects p).

(** One more call on an event emitter. *)
Definition emit (e : Effect) (p : Popup) : Popup :=
  mkPopup (_map p) (options p) (_content p) (_container p) (_closeButton p)
          (_tip p) (_lngLat p) (_pos p) (effects p ++ [e])%list.

(** How a method call ends: it returns, or it throws; either way it
    leaves a state behind. *)
Inductive Completion : Type :=
| Normal (p : Popup)
| Abrupt (p : Popup).

Definition and_then (c : Completion) (k : Popup -> Completion) : Completion :=
  match c with
  | Normal p => k p
  | Abrupt p => Abrupt p
  end.

Notation "c >>= k" := (and_then c k) (at level 50, left associativity).

(** The state a completion leaves behind. *)
Definition state_of (c : Completion) : Popup :=
  match c with Normal p => p | Abrupt p => p end.

(** [new Popup(options)] *)
Definition new_Popup (o : PopupOptions) : Popup :=
  mkPopup None o None None false false None None [].

(** [isOpen()] *)
Definition isOpen (p : Popup) : bool :=
  match _map p with Some _ => true | None => false end.

(** [getLngLat()] *)
Definition getLngLat (p : Popup) : option LngLat := _lngLat p.

(** [remove()] *)
Definition remove (p : Popup) : Completion :=
  let p :=
    match _content p with
    | Some content => set_content (Some (DOM.remove_content content)) p
    | None => p
    end in
  let p :=
    match _container p with
    | Some _ => set_container None p
    | None => p
    end in
  let p :=
    match _map p with
    | Some map =>
        set_map None
          (emit (map_off map "click" H_onClickClose)
             (emit (map_off map "move" H_update) p))
    | None => p
    end in
  Normal (emit (fire "close") p).

(** [_onClickClose()] *)
Definition _onClickClose (p : Popup) : Completion := remove p.

(** [_createContent()] *)
Definition _createContent (p : Popup) : Popup :=
  let p :=
    match _content p with
    | Some content => set_content (Some (DOM.remove_content content)) p
    | None => p
    end in
  let content :=
    mkContentEl (match _container p with Some _ => true | None => false end)
                [] in
  let p := set_content (Some content) p in
  if closeButton (options p) then
    set_content (Some (DOM.content_appendChild content CloseButton))
                (set_closeButton true p)
  else p.

(** [names.forEach(name => this._container.classList.add(name))] *)
Fixpoint add_class_names (names : list string) (p : Popup) : Completion :=
  match names with
  | [] => Normal p
  | name :: names' =>
      match _container p with
      | Some c =>
          match DOM.classList_add (classList c) name with
          | Some l =>
              add_class_names names'
                (set_container
                   (Some (mkContainerEl (container_parent c) l
                                        (style_transform c))) p)
          | None => Abrupt p
          end
      | None => Abrupt p
      end
  end.

(** The [if (!this._container)] block of [_update].  [DOM.create(tag,
    className, parent)] of [util/dom] makes an element with that class
    and appends it to [parent]. *)
Definition ensure_container (map : Map) (content : ContentEl) (p : Popup)
  : Completion :=
  match _container p with
  | Some _ => Normal p
  | None =>
      let container :=
        mkContainerEl (Some (getContainer map)) ["mapboxgl-popup"] None in
      let p := set_container (Some container) p in
      let p := set_tip true p in
      let p := set_content (Some (DOM.attach_content content)) p in
      if String.eqb (className (options p)) "" then Normal p
      else add_class_names (DOM.split_space (className (options p))) p
  end.

(** The anchor [_update] uses: the one of the options if it is set (a
    non-empty string), else the one selected from the position. *)
Definition choose_anchor (map : Map) (pos : Point) (table : OffsetTable)
    (container : ContainerEl) (content : ContentEl) (o : PopupOptions)
  : string :=
  match anchor o with
  | Some a =>
      if String.eqb a "" then
        autoAnchor pos table
          (inject_Z (offsetWidth container content))
          (inject_Z (offsetHeight container content))
          (width (transform map)) (height (transform map))
      else a
  | None =>
      autoAnchor pos table
        (inject_Z (offsetWidth container content))
        (inject_Z (offsetHeight container content))
        (width (transform map)) (height (transform map))
  end.

(** [offset[anchor]] *)
Definition lookup_anchor (table : OffsetTable) (anchor : string) : Property :=
  match table_get table anchor with
  | Some p => own p
  | None => if Object_prototype_has anchor then inherited else undefined
  end.

(** [pos.add(v).round()]; [None] when it throws.  [add] reads [v.x] and
    [v.y]: the coordinates of a point; of another object [undefined],
    which makes both sums NaN; of [undefined] a TypeError. *)
Definition add_round (pos : Point) (v : Property) : option Translation :=
  match v with
  | own q => Some (translate (PointM.round (PointM.add pos q)))
  | inherited => Some translate_NaN
  | undefined => None
  end.

(** The rest of [_update], from the world-copy wrap on. *)
Definition place (map : Map) (lngLat : LngLat) (p : Popup) : Completion :=
  let lngLat :=
    if renderWorldCopies (transform map)
    then smartWrap lngLat (_pos p) (transform map)
    else lngLat in
  let p := set_lngLat (Some lngLat) p in
  let pos := project map lngLat in
  let p := set_pos (Some pos) p in
  match _container p, _content p with
  | Some container, Some content =>
      let table := normalizeOffset (offset (options p)) in
      let anchor := choose_anchor map pos table container content (options p) in
      match add_round pos (lookup_anchor table anchor) with
      | Some offsetedPos =>
          let container :=
            mkContainerEl (container_parent container) (classList container)
              (Some (mkCssTransform (anchorTranslate anchor) offsetedPos)) in
          let container :=
            mkContainerEl (container_parent container)
              (applyAnchorClass (classList container) anchor "popup")
              (style_transform container) in
          Normal (set_container (Some container) p)
      | None => Abrupt p
      end
  | _, _ => Abrupt p
  end.

(** [_update()] *)
Definition _update (p : Popup) : Completion :=
  match _map p, _lngLat p, _content p with
  | Some map, Some lngLat, Some content =>
      ensure_container map content p >>= place map lngLat
  | _, _, _ => Normal p
  end.

(** [addTo(map)] *)
Definition addTo (map : Map) (p : Popup) : Completion :=
  let p := set_map (Some map) p in
  let p := emit (map_on map "move" H_update) p in
  let p :=
    if closeOnClick (options p)
    then emit (map_on map "click" H_onClickClose) p
    else p in
  _update p >>= fun p => Normal (emit (fire "open") p).

(** [setLngLat(lnglat)] *)
Definition setLngLat (lnglat : LngLatLike) (p : Popup) : Completion :=
  match LngLat_convert lnglat with
  | Some l => _update (set_pos None (set_lngLat (Some l) p))
  | None => Abrupt p
  end.

(** [setDOMContent(htmlNode)] *)
Definition setDOMContent (htmlNode : DomNode) (p : Popup) : Completion :=
  let p := _createContent p in
  match _content p with
  | Some content =>
      _update
        (set_content (Some (DOM.content_appendChild content htmlNode)) p)
  | None => Abrupt p
  end.

(** [setText(text)] *)
Definition setText (text : string) (p : Popup) : Completion :=
  setDOMContent (TextNode text) p.

(** [setHTML(html)]: the loop moves the parsed nodes into a fragment. *)
Definition setHTML (html : string) (p : Popup) : Completion :=
  setDOMContent (Fragment html) p.

End Popup.

Notation "c >>= k" := (and_then c k) (at level 50, left associativity).

(** ** Histories of a popup *)

Section History.

Context {V : View} {B : Browser}.

(** What can happen to a popup: a call of one of its methods, or the view
    it is added to firing [move] (after its state became [map]) or
    [click]. *)
Inductive Call : Type :=
| call_addTo (map : Map)
| call_remove
| call_setLngLat (lnglat : LngLatLike)
| call_setText (text : string)
| call_setHTML (html : string)
| call_setDOMContent (htmlNode : DomNode)
| event_move (map : Map)
| event_click.

Definition run (c : Call) (p : Popup) : Completion :=
  match c with
  | call_addTo map => addTo map p
  | call_remove => remove p
  | call_setLngLat lnglat => setLngLat lnglat p
  | call_setText text => setText text p
  | call_setHTML html => setHTML html p
  | call_setDOMContent htmlNode => setDOMContent htmlNode p
  | event_move map =>
      match _map p with
      | Some _ => _update (set_map (Some map) p)
      | None => _update p
      end
  | event_click => _onClickClose p
  end.

(** The states a popup can be in: the one the constructor builds, and
    the one any call or event leaves behind, whether it returned or
    threw. *)
Inductive reachable : Popup -> Prop :=
| reachable_new (o : PopupOptions) : reachable (new_Popup o)
| reachable_run (c : Call) (p : Popup) :
    reachable p -> reachable (state_of (run c p)).

(** The popup has what [_update] needs to render. *)
Definition ready (p : Popup) : Prop :=
  is_Some (_map p) /\ is_Some (_lngLat p) /\ is_Some (_content p).

(** The container exists only while the popup is added to a view, and
    the content element is in the container only while there is one. *)
Definition consistent (p : Popup) : Prop :=
  (is_Some (_container p) -> is_Some (_map p)) /\
  (forall content, _content p = Some content ->
     content_attached content = true -> is_Some (_container p)).

(** What a step leaves alone: every field but the container. *)
Definition same_but_container (p p' : Popup) : Prop :=
  _map p' = _map p /\ options p' = options p /\ _content p' = _content p /\
  _closeButton p' = _closeButton p /\ _tip p' = _tip p /\
  _lngLat p' = _lngLat p /\ _pos p' = _pos p /\ effects p' = effects p.



(** Whether the popup is added to a view that renders world copies. *)
Definition wraps (p : Popup) : bool :=
  match _map p with
  | Some map => renderWorldCopies (transform map)
  | None => false
  end.

(** What [smartWrap] promises: the same latitude, and a longitude that
    differs by a multiple of 360 degrees. *)
Definition smartWrap_wraps : Prop :=
  forall (l : LngLat) (prior : option Point) (t : Transform),
    lat (smartWrap l prior t) = lat l /\
    exists k : Z, lng (smartWrap l prior t) == lng l + 360 * inject_Z k.

(** While the popup has a container it is added to a view, has a
    location, a tip and a content, and the content is in the container;
    while it has none, the content is in no element. *)
Definition shown_consistent (p : Popup) : Prop :=
  (is_Some (_container p) ->
   is_Some (_map p) /\ is_Some (_lngLat p) /\ _tip p = true /\
   exists content, _content p = Some content /\
                   content_attached content = true) /\
  (_container p = None ->
   forall content, _content p = Some content ->
                   content_attached content = false).

(** The calls that detach the popup. *)
Definition detaches (c : Call) : bool :=
  match c with
  | call_remove | event_click => true
  | _ => false
  end.

End History.

(** ** A concrete view and browser

    A flat world of 360 x 180 pixels, one pixel per degree, with a
    20 x 20 popup box; used to run the definitions on concrete
    inputs. *)

Module Demo.

Record DemoMap : Type := mkDemoMap {
  worldCopies : bool;
  viewWidth : Q;
  viewHeight : Q
}.

(** Bring the longitude into [-180, 180). *)
Definition wrap (l : LngLat) (prior : option Point) (t : DemoMap) : LngLat :=
  mkLngLat (lng l - 360 * inject_Z (Qfloor ((lng l + 180) / 360))) (lat l).

Definition view : View := {|
  Map := DemoMap;
  Transform := DemoMap;
  HTMLElement := unit;
  LngLatLike := Q * Q;
  LngLat_convert := fun a =>
    if (Qle_bool (- (90)) (snd a) && Qle_bool (snd a) 90)%bool
    then Some (mkLngLat (fst a) (snd a)) else None;
  transform := fun m => m;
  getContainer := fun _ => tt;
  project := fun _ l => mkPoint (lng l + 180) (90 - lat l);
  renderWorldCopies := worldCopies;
  width := viewWidth;
  height := viewHeight;
  smartWrap := wrap
|}.

Definition browser : @Browser view := {|
  offsetWidth := fun _ _ => 20%Z;
  offsetHeight := fun _ _ => 20%Z;
  anchorTranslate := fun a => a;
  applyAnchorClass := fun l a prefix =>
    app l [String.append "mapboxgl-"
             (String.append prefix (String.append "-anchor-" a))];
  Object_prototype_has := fun name =>
    existsb (String.eqb name)
      ["constructor"; "__proto__"; "hasOwnProperty"; "isPrototypeOf";
       "propertyIsEnumerable"; "toLocaleString"; "toString"; "valueOf";
       "__defineGetter__"; "__defineSetter__"; "__lookupGetter__";
       "__lookupSetter__"]
|}.

Definition world : DemoMap := mkDemoMap true 360 180.

(** [new mapboxgl.Popup()] *)
Definition fresh : @Popup view :=
  new_Popup (mkPopupOptions None None None None None).

(** [new mapboxgl.Popup().remove()] *)
Definition closed : @Popup view := state_of (remove fresh).

(** [new mapboxgl.Popup().addTo(map)] *)
Definition added : @Popup view :=
  state_of (addTo (V := view) (B := browser) world fresh).

(** [new mapboxgl.Popup().setLngLat([190, 10]).setText('hi').addTo(map)] *)
Definition shown : @Popup view :=
  state_of
    (setLngLat (V := view) (B := browser) (190, 10) fresh
     >>= setText (V := view) (B := browser) "hi"
     >>= addTo (V := view) (B := browser) world).

End Demo.

(** ** More concrete popups *)

Module Scenes.

(** [new mapboxgl.Popup(o).setLngLat([190, 10]).setText('hi')] *)
Definition prepared (o : PopupOptions)
  : @Popup Demo.view :=
  state_of
    (setLngLat (V := Demo.view) (B := Demo.browser) (190, 10) (new_Popup o)
     >>= setText (V := Demo.view) (B := Demo.browser) "hi").

(** The same, then [.addTo(map)]. *)
Definition added (o : PopupOptions) : @Popup Demo.view :=
  state_of (addTo (V := Demo.view) (B := Demo.browser) Demo.world
                  (prepared o)).

(** [{anchor: 'top'}] *)
Definition anchored : @Popup Demo.view :=
  added (mkPopupOptions None None (Some "top") None None).


(** [{className: 'a  b'}], with two spaces; not added to a view. *)
Definition spaced : @Popup Demo.view :=
  prepared (mkPopupOptions None None None None (Some "a  b")).




(** A second view. *)
Definition other_world : Demo.DemoMap := Demo.mkDemoMap false 720 180.

End Scenes.

(** * Properties *)

(** ** Worked examples *)

Example split_space_ex1 : DOM.split_space "a b" = ["a"; "b"].
Proof. reflexivity. Qed.

Example split_space_ex2 : DOM.split_space " a  b" = [""; "a"; ""; "b"].
Proof. reflexivity. Qed.

Example autoAnchor_ex1 :
  autoAnchor (mkPoint 10 10) (normalizeOffset None) 20 20 200 200 = "top".
Proof. reflexivity. Qed.

Example autoAnchor_ex2 :
  autoAnchor (mkPoint 5 195) (normalizeOffset None) 20 20 200 200
  = "bottom-left".
Proof. reflexivity. Qed.

Example normalizeOffset_ex1 :
  top_left (normalizeOffset (Some (Offset_number 10))) = mkPoint 7 7.
Proof. reflexivity. Qed.

Example shown_ex :
  _lngLat Demo.shown = Some (mkLngLat (- (170)) 10) /\
  _pos Demo.shown = Some (mkPoint 10 80) /\
  (style_transform <$> _container Demo.shown)
  = Some (Some (mkCssTransform "bottom" (translate (mkPoint 10 80)))) /\
  effects Demo.shown
  = [map_on (H := Demo.view) Demo.world "move" H_update;
     map_on (H := Demo.view) Demo.world "click" H_onClickClose;
     fire "open"].
Proof. vm_compute. repeat split. Qed.

(** ** Numbers *)

Lemma ltb_lt (a b : Q) : Num.ltb a b = true <-> a < b.
Proof.
  unfold Num.ltb. rewrite negb_true_iff, <- not_true_iff_false, Qle_bool_iff.
  split; [apply Qnot_le_lt | apply Qlt_not_le].
Qed.


Lemma truthy_opp (r : Q) : Num.truthy (- r) = Num.truthy r.
Proof.
  unfold Num.truthy. f_equal.
  destruct (Qeq_bool r 0) eqn:E.
  - apply Qeq_bool_iff in E. apply Qeq_bool_iff. rewrite E. reflexivity.
  - apply not_true_iff_false. intros E'. apply Qeq_bool_iff in E'.
    apply not_true_iff_false in E. apply E, Qeq_bool_iff.
    rewrite <- (Qopp_involutive r), E'. reflexivity.
Qed.

Lemma round_sqrt_half_sq_opp (r : Q) :
  Num.round_sqrt_half_sq (- r) = Num.round_sqrt_half_sq r.
Proof.
  destruct r as [n d]. unfold Num.round_sqrt_half_sq. simpl.
  rewrite Z.mul_opp_opp. reflexivity.
Qed.

Lemma round_sqrt_half_sq_nonneg (r : Q) : (0 <= Num.round_sqrt_half_sq r)%Z.
Proof.
  unfold Num.round_sqrt_half_sq. apply Z.div_pos; [| lia].
  pose proof (Z.sqrt_nonneg (2 * (Qnum r * Qnum r))). lia.
Qed.


(** ** Offset normalisation *)

Lemma table_get_anchor_names (t : OffsetTable) (name : string) :
  In name anchor_names -> is_Some (table_get t name).
Proof.
  unfold anchor_names. simpl.
  intros H; repeat (destruct H as [<- | H]; [eexists; reflexivity |]).
  destruct H.
Qed.

Lemma normalizeOffset_zero_radius (r : Q) :
  Num.truthy r = false ->
  normalizeOffset (Some (Offset_number r)) = normalizeOffset_all (mkPoint 0 0).
Proof. intros H. unfold normalizeOffset. rewrite H. reflexivity. Qed.

Lemma normalizeOffset_radius_eq (r : Q) :
  Num.truthy r = true ->
  normalizeOffset (Some (Offset_number r)) = normalizeOffset_radius r.
Proof. intros H. unfold normalizeOffset. rewrite H. reflexivity. Qed.

Lemma round_sqrt_half_sq_zero (r : Q) :
  Num.truthy r = false -> Num.round_sqrt_half_sq r = 0%Z.
Proof.
  unfold Num.truthy. rewrite negb_false_iff, Qeq_bool_iff.
  destruct r as [n d]. unfold Qeq, Num.round_sqrt_half_sq. simpl.
  intros H. assert (n = 0%Z) by lia. subst n. simpl.
  apply Z.div_small. lia.
Qed.




(** The corner entries of the table built from a radius. *)
Lemma normalizeOffset_corners (r : Q) :
  let t := normalizeOffset (Some (Offset_number r)) in
  let c := inject_Z (Num.round_sqrt_half_sq r) in
  top_left t = mkPoint c c /\ top_right t = mkPoint (- c) c /\
  bottom_left t = mkPoint c (- c) /\ bottom_right t = mkPoint (- c) (- c).
Proof.
  cbv zeta. destruct (Num.truthy r) eqn:E.
  - rewrite (normalizeOffset_radius_eq _ E). repeat split.
  - rewrite (normalizeOffset_zero_radius _ E), (round_sqrt_half_sq_zero _ E).
    repeat split.
Qed.

(** The edge entries of the table built from a radius, up to the
    representation of zero. *)
Lemma normalizeOffset_edges (r : Q) :
  let t := normalizeOffset (Some (Offset_number r)) in
  (Num.truthy r = true /\
   top t = mkPoint 0 r /\ bottom t = mkPoint 0 (- r) /\
   left t = mkPoint r 0 /\ right t = mkPoint (- r) 0) \/
  (Num.truthy r = false /\
   top t = mkPoint 0 0 /\ bottom t = mkPoint 0 0 /\
   left t = mkPoint 0 0 /\ right t = mkPoint 0 0).
Proof.
  cbv zeta. destruct (Num.truthy r) eqn:E.
  - left. rewrite (normalizeOffset_radius_eq _ E). repeat split.
  - right. rewrite (normalizeOffset_zero_radius _ E). repeat split.
Qed.


(** C10: the corner entries of the table depend on the magnitude of the
    radius only, and are never negative on the [top-left] corner: the
    tables built from [r] and from [-r] have the same four corner
    entries, while their four edge entries are negations of each other.
    For the radius [-10], the [top-left] entry is [(7, 7)] as it is for
    [10], and the [left] entry is [(-10, 0)]. *)
Theorem normalizeOffset_negative_radius (r : Q) :
  let t := normalizeOffset (Some (Offset_number r)) in
  let t' := normalizeOffset (Some (Offset_number (- r))) in
  let c := inject_Z (Num.round_sqrt_half_sq r) in
  (top_left t' = top_left t /\ top_right t' = top_right t /\
   bottom_left t' = bottom_left t /\ bottom_right t' = bottom_right t) /\
  (top_left t = mkPoint c c /\ 0 <= c) /\
  (top t' = PointM.neg (top t) /\ bottom t' = PointM.neg (bottom t) /\
   left t' = PointM.neg (left t) /\ right t' = PointM.neg (right t)) /\
  (top_left (normalizeOffset (Some (Offset_number (- (10))))) = mkPoint 7 7 /\
   top_left (normalizeOffset (Some (Offset_number 10))) = mkPoint 7 7 /\
   left (normalizeOffset (Some (Offset_number (- (10))))) = mkPoint (- (10)) 0 /\
   left (normalizeOffset (Some (Offset_number 10))) = mkPoint 10 0).
Proof.
  cbv zeta. split; [| split; [| split]].
  - destruct (normalizeOffset_corners r) as (-> & -> & -> & ->).
    destruct (normalizeOffset_corners (- r)) as (-> & -> & -> & ->).
    rewrite round_sqrt_half_sq_opp. repeat split.
  - destruct (normalizeOffset_corners r) as (-> & _). split; [reflexivity |].
    pose proof (round_sqrt_half_sq_nonneg r).
    unfold Qle, inject_Z. simpl. lia.
  - pose proof (truthy_opp r) as Ho.
    destruct (normalizeOffset_edges r)
      as [(E & -> & -> & -> & ->) | (E & -> & -> & -> & ->)];
      rewrite E in Ho;
      destruct (normalizeOffset_edges (- r))
        as [(E' & -> & -> & -> & ->) | (E' & -> & -> & -> & ->)];
      try congruence; repeat split.
  - repeat split.
Qed.

(** Only the nine anchor names are read from the mapping. *)
Lemma normalizeOffset_map_ext (m m' : gmap string PointLike) :
  (forall name, In name anchor_names -> m' !! name = m !! name) ->
  normalizeOffset_map m' = normalizeOffset_map m.
Proof.
  intros H. unfold normalizeOffset_map, entry_or_zero.
  rewrite !H by (unfold anchor_names; simpl; tauto).
  reflexivity.
Qed.

(** C6: in the table built from a per-anchor mapping, the entry of each
    of the nine anchor names is the mapping's value for that name,
    converted to a point, or [(0, 0)] when the mapping has no such key;
    adding or removing a key that is not an anchor name leaves the table
    as it was. *)
Theorem normalizeOffset_map_entries (m : gmap string PointLike) :
  (forall name, In name anchor_names ->
     table_get (normalizeOffset (Some (Offset_map m))) name =
     Some (match m !! name with
           | Some v => PointM.convert v
           | None => mkPoint 0 0
           end)) /\
  (forall key v, ~ In key anchor_names ->
     normalizeOffset (Some (Offset_map (<[key := v]> m))) =
     normalizeOffset (Some (Offset_map m))) /\
  (forall key, ~ In key anchor_names ->
     normalizeOffset (Some (Offset_map (delete key m))) =
     normalizeOffset (Some (Offset_map m))).
Proof.
  split; [| split].
  - intros name H. unfold anchor_names in H. simpl in H.
    repeat (destruct H as [<- | H];
            [unfold normalizeOffset, normalizeOffset_map, table_get,
               entry_or_zero; cbn [String.eqb Ascii.eqb Bool.eqb
               center top top_left top_right bottom bottom_left
               bottom_right left right];
             destruct (m !! _); reflexivity |]).
    destruct H.
  - intros key v Hk. unfold normalizeOffset.
    apply normalizeOffset_map_ext. intros name Hn.
    apply lookup_insert_ne. intros ->. exact (Hk Hn).
  - intros key Hk. unfold normalizeOffset.
    apply normalizeOffset_map_ext. intros name Hn.
    apply lookup_delete_ne. intros ->. exact (Hk Hn).
Qed.

(** ** Automatic anchor selection *)



Lemma autoAnchor_in (pos : Point) (offset : OffsetTable)
    (width height viewportWidth viewportHeight : Q) :
  In (autoAnchor pos offset width height viewportWidth viewportHeight)
     auto_anchors.
Proof.
  unfold autoAnchor, Num.gtb, push.
  destruct (Num.ltb (y pos + y (bottom offset)) height);
    destruct (Num.ltb (viewportHeight - height) (y pos));
    destruct (Num.ltb (x pos) (width / 2));
    destruct (Num.ltb (viewportWidth - width / 2) (x pos));
    cbn; tauto.
Qed.

Lemma auto_anchors_names (a : string) :
  In a auto_anchors -> In a anchor_names.
Proof. unfold auto_anchors, anchor_names. simpl. tauto. Qed.

(** C4: when neither the vertical nor the horizontal condition holds,
    the selected anchor is [bottom]; and whatever the inputs, the
    selected anchor is one of the eight names the selection can build,
    each of which has an entry in the offset table. *)
Theorem autoAnchor_fallback (pos : Point) (offset : OffsetTable)
    (width height viewportWidth viewportHeight : Q) :
  (~ y pos + y (bottom offset) < height ->
   ~ viewportHeight - height < y pos ->
   ~ x pos < width / 2 ->
   ~ viewportWidth - width / 2 < x pos ->
   autoAnchor pos offset width height viewportWidth viewportHeight = "bottom")
  /\ In (autoAnchor pos offset width height viewportWidth viewportHeight)
        auto_anchors
  /\ is_Some (table_get offset
       (autoAnchor pos offset width height viewportWidth viewportHeight)).
Proof.
  split; [| split].
  - intros H1 H2 H3 H4. unfold autoAnchor, Num.gtb.
    rewrite <- ltb_lt, not_true_iff_false in H1, H2, H3, H4.
    rewrite H1, H2, H3, H4. reflexivity.
  - apply autoAnchor_in.
  - apply table_get_anchor_names, auto_anchors_names, autoAnchor_in.
Qed.

Lemma autoAnchor_fallback_witness :
  autoAnchor (mkPoint 100 100) (normalizeOffset None) 20 20 200 200 = "bottom".
Proof.
  apply (autoAnchor_fallback (mkPoint 100 100) (normalizeOffset None)
           20 20 200 200);
    vm_compute; intros H; discriminate H.
Defined.

Lemma normalizeOffset_map_entries_witness :
  table_get (normalizeOffset
               (Some (Offset_map {[ "top" := PL_Array 1 2 ]}))) "top"
  = Some (mkPoint 1 2)
  /\ table_get (normalizeOffset
               (Some (Offset_map {[ "top" := PL_Array 1 2 ]}))) "left"
  = Some (mkPoint 0 0)
  /\ normalizeOffset
       (Some (Offset_map (<[ "middle" := PL_Array 3 4 ]>
                            {[ "top" := PL_Array 1 2 ]})))
     = normalizeOffset (Some (Offset_map {[ "top" := PL_Array 1 2 ]})).
Proof.
  destruct (normalizeOffset_map_entries {[ "top" := PL_Array 1 2 ]})
    as (Hget & Hins & _).
  split; [| split].
  - apply (Hget "top"). vm_compute. tauto.
  - apply (Hget "left"). vm_compute. tauto.
  - apply (Hins "middle"). vm_compute.
    intros H; repeat (destruct H as [H | H]; [discriminate H |]); exact H.
Defined.

(** *** The other shapes of an offset *)

Lemma table_get_all (q : Point) (name : string) :
  In name anchor_names -> table_get (normalizeOffset_all q) name = Some q.
Proof.
  unfold anchor_names. simpl.
  intros H; repeat (destruct H as [<- | H]; [reflexivity |]).
  destruct H.
Qed.


(** X1: a single point or two-element array given as the offset is the
    entry of every one of the nine anchors. *)
Theorem normalizeOffset_point_entries (p : PointLike) (name : string) :
  In name anchor_names ->
  table_get (normalizeOffset (Some (Offset_point p))) name
  = Some (PointM.convert p).
Proof. intros H. unfold normalizeOffset. now apply table_get_all. Qed.

Lemma normalizeOffset_point_entries_witness :
  table_get (normalizeOffset (Some (Offset_point (PL_Array 3 (- (4))))))
            "top-left"
  = Some (mkPoint 3 (- (4))).
Proof.
  apply (normalizeOffset_point_entries (PL_Array 3 (- (4))) "top-left").
  vm_compute. tauto.
Defined.

(** X2: no offset, a radius that is zero in any representation, the
    point (0, 0) and a mapping without keys all give the same table, in
    which every one of the nine entries is (0, 0). *)
Theorem normalizeOffset_zero (r : Q) (name : string) :
  r == 0 -> In name anchor_names ->
  normalizeOffset (Some (Offset_number r)) = normalizeOffset None /\
  normalizeOffset (Some (Offset_point (PL_Array 0 0))) = normalizeOffset None /\
  normalizeOffset (Some (Offset_point (PL_Point (mkPoint 0 0))))
    = normalizeOffset None /\
  normalizeOffset (Some (Offset_map ∅)) = normalizeOffset None /\
  table_get (normalizeOffset None) name = Some (mkPoint 0 0).
Proof.
  intros Hr Hn. split; [| split; [| split; [| split]]].
  - apply normalizeOffset_zero_radius. unfold Num.truthy.
    apply negb_false_iff, Qeq_bool_iff, Hr.
  - reflexivity.
  - reflexivity.
  - reflexivity.
  - unfold normalizeOffset. now apply table_get_all.
Qed.

Lemma normalizeOffset_zero_witness :
  normalizeOffset (Some (Offset_number (0 # 5))) = normalizeOffset None /\
  table_get (normalizeOffset None) "right" = Some (mkPoint 0 0).
Proof.
  destruct (normalizeOffset_zero (0 # 5) "right") as (H1 & _ & _ & _ & H5).
  - reflexivity.
  - vm_compute. tauto.
  - split; [exact H1 | exact H5].
Defined.

(** ** The widget *)

Section PopupFacts.

Context {V : View} {B : Browser}.

Lemma add_class_names_frame (names : list string) (p : Popup) :
  same_but_container p (state_of (add_class_names names p)) /\
  (is_Some (_container p) ->
   is_Some (_container (state_of (add_class_names names p)))).
Proof.
  revert p. induction names as [| name names IH]; intros p; simpl.
  - unfold same_but_container. tauto.
  - destruct (_container p) as [c |] eqn:Ec; simpl.
    + destruct (DOM.classList_add (classList c) name) as [l |]; simpl.
      * match goal with |- context [add_class_names names ?q] =>
          destruct (IH q) as [Hf Hc] end.
        split; [| intros _; apply Hc; eexists; reflexivity].
        unfold same_but_container in *. simpl in Hf. exact Hf.
      * rewrite Ec. unfold same_but_container. split; [tauto | eauto].
    + rewrite Ec. unfold same_but_container. tauto.
Qed.

(** After [ensure_container] there is a container, the content is in
    it, and the other fields are as before. *)
Lemma ensure_container_frame (map : Map) (content : ContentEl) (p : Popup) :
  _content p = Some content ->
  let p' := state_of (ensure_container map content p) in
  _map p' = _map p /\ options p' = options p /\ _lngLat p' = _lngLat p /\
  _pos p' = _pos p /\ effects p' = effects p /\
  _closeButton p' = _closeButton p /\
  is_Some (_container p') /\
  (exists content', _content p' = Some content' /\
     content_children content' = content_children content) /\
  (forall c, _container p = Some c -> p' = p).
Proof.
  intros Hc. cbv zeta. unfold ensure_container.
  destruct (_container p) as [c |] eqn:Ec; simpl.
  - rewrite Ec. repeat split; eauto.
  - destruct (String.eqb (className (options p)) ""); simpl.
    + repeat split; eauto. discriminate.
    + match goal with |- context [add_class_names ?n ?q] =>
        destruct (add_class_names_frame n q)
          as [(H1 & H2 & H3 & H4 & H5 & H6 & H7 & H8) H9] end.
      simpl in *. rewrite H1, H2, H3, H4, H6, H7, H8.
      repeat split; eauto. discriminate.
Qed.

(** [place] changes the location, the position and the container only. *)
Lemma place_frame (map : Map) (lngLat : LngLat) (p : Popup) :
  let p' := state_of (place map lngLat p) in
  _map p' = _map p /\ options p' = options p /\ _content p' = _content p /\
  effects p' = effects p /\ _closeButton p' = _closeButton p /\
  (is_Some (_container p) -> is_Some (_container p')) /\
  (is_Some (_container p') -> is_Some (_container p)).
Proof.
  cbv zeta. unfold place. simpl.
  destruct (_container p) as [c |] eqn:Ec; simpl.
  - destruct (_content p) as [ct |] eqn:Et; simpl.
    + match goal with |- context [add_round ?t ?a] =>
        destruct (add_round t a) end; simpl; rewrite ?Ec, ?Et;
        repeat split; eauto.
    + rewrite Ec, Et. repeat split; eauto.
  - rewrite Ec. repeat split; eauto.
Qed.

Lemma state_of_and_then (c : Completion) (k : Popup -> Completion) :
  state_of (c >>= k) =
  match c with Normal p => state_of (k p) | Abrupt p => p end.
Proof. destruct c; reflexivity. Qed.

(** [_update] leaves the view, the options, the event calls and the
    children of the content alone, and never removes the container. *)
Lemma _update_frame (p : Popup) :
  let p' := state_of (_update p) in
  _map p' = _map p /\ options p' = options p /\ effects p' = effects p /\
  (is_Some (_content p) <-> is_Some (_content p')) /\
  (is_Some (_container p) -> is_Some (_container p')) /\
  (is_Some (_container p') -> is_Some (_container p) \/ ready p).
Proof.
  cbv zeta. unfold _update, ready.
  destruct (_map p) as [map |] eqn:Em; [| simpl; rewrite ?Em; tauto].
  destruct (_lngLat p) as [l |] eqn:El; [| simpl; rewrite ?Em; tauto].
  destruct (_content p) as [ct |] eqn:Et; [| simpl; rewrite ?Em, ?Et; tauto].
  rewrite state_of_and_then.
  destruct (ensure_container_frame map ct p Et)
    as (H1 & H2 & _ & _ & H5 & _ & H7 & (ct' & H8 & _) & _).
  destruct (ensure_container map ct p) as [q | q]; simpl in *.
  - destruct (place_frame map l q) as (G1 & G2 & G3 & G4 & _ & G6 & _).
    rewrite G1, G2, G3, G4, H1, H2, H5, H8.
    repeat split; eauto.
  - rewrite H1, H2, H5, H8. repeat split; eauto.
Qed.

Lemma _update_ready_container (p : Popup) :
  ready p -> is_Some (_container (state_of (_update p))).
Proof.
  intros ([map Em] & [l El] & [ct Et]). unfold _update.
  rewrite Em, El, Et, state_of_and_then.
  destruct (ensure_container_frame map ct p Et)
    as (_ & _ & _ & _ & _ & _ & H7 & _).
  destruct (ensure_container map ct p) as [q | q]; simpl in *; [| exact H7].
  destruct (place_frame map l q) as (_ & _ & _ & _ & _ & G6 & _). auto.
Qed.

Lemma _update_not_ready (p : Popup) : ~ ready p -> _update p = Normal p.
Proof.
  unfold ready, _update. intros H.
  destruct (_map p); [| reflexivity].
  destruct (_lngLat p); [| reflexivity].
  destruct (_content p); [| reflexivity].
  exfalso. apply H. eauto.
Qed.

Lemma ready_dec (p : Popup) : ready p \/ ~ ready p.
Proof.
  unfold ready.
  destruct (_map p); [| right; intros ([? ?] & _); discriminate].
  destruct (_lngLat p); [| right; intros (_ & [? ?] & _); discriminate].
  destruct (_content p); [| right; intros (_ & _ & [? ?]); discriminate].
  left. eauto.
Qed.

(** C7: [_update] touches the container (its transform and its classes)
    only when the popup is added to a view and has a location and a
    content; when one of the three is missing the call returns and
    leaves the state as it was. *)
Theorem _update_noop_unless_ready (p : Popup) :
  (~ ready p -> _update p = Normal p) /\
  (_container (state_of (_update p)) <> _container p -> ready p).
Proof.
  split; [apply _update_not_ready |].
  intros Hne. destruct (ready_dec p) as [H | H]; [exact H |].
  rewrite (_update_not_ready p H) in Hne. now destruct Hne.
Qed.

(** *** The invariant *)

Lemma _update_consistent (p : Popup) :
  consistent p -> consistent (state_of (_update p)).
Proof.
  intros Hc. destruct (ready_dec p) as [H | H].
  - pose proof (_update_ready_container p H) as Hk.
    destruct (_update_frame p) as (H1 & _).
    destruct H as (Hm & _). split; [rewrite H1 |]; auto.
  - now rewrite (_update_not_ready p H).
Qed.

Lemma remove_consistent (p : Popup) : consistent (state_of (remove p)).
Proof.
  destruct p as [m o ct cn cb tp l ps ef]. unfold remove, consistent.
  destruct ct as [ct |], cn, m; simpl;
    (split; [intros [? ?]; discriminate
            | intros ? ? ?; try discriminate; simplify_eq; discriminate]).
Qed.

Lemma _createContent_consistent (p : Popup) :
  consistent p -> consistent (_createContent p).
Proof.
  destruct p as [m o ct cn cb tp l ps ef].
  intros [H1 H2]. unfold _createContent, consistent. simpl in *.
  destruct ct as [ct |]; simpl in *;
    destruct (closeButton o); destruct cn as [c |]; simpl in *;
    (split; [exact H1 | intros ? ? ?; eauto; simplify_eq; discriminate]).
Qed.

Lemma run_consistent (c : Call) (p : Popup) :
  consistent p -> consistent (state_of (run c p)).
Proof.
  intros Hc. destruct c; simpl.
  - unfold addTo. rewrite state_of_and_then.
    match goal with |- context [_update ?q] =>
      assert (Hq : consistent q);
      [| pose proof (_update_consistent q Hq); destruct (_update q); auto]
    end.
    destruct Hc as [H1 H2].
    destruct (closeOnClick (options _)); (split; [eauto | exact H2]).
  - apply remove_consistent.
  - unfold setLngLat. destruct (LngLat_convert lnglat); [| exact Hc].
    apply _update_consistent. exact Hc.
  - unfold setText, setDOMContent.
    pose proof (_createContent_consistent p Hc) as Hq.
    destruct (_content (_createContent p)) as [ct |] eqn:E; [| exact Hq].
    apply _update_consistent. destruct Hq as [H1 H2]. split; [exact H1 |].
    intros ct' Hct' Ha. simpl in Hct'. simplify_eq. apply (H2 ct E Ha).
  - unfold setHTML, setDOMContent.
    pose proof (_createContent_consistent p Hc) as Hq.
    destruct (_content (_createContent p)) as [ct |] eqn:E; [| exact Hq].
    apply _update_consistent. destruct Hq as [H1 H2]. split; [exact H1 |].
    intros ct' Hct' Ha. simpl in Hct'. simplify_eq. apply (H2 ct E Ha).
  - unfold setDOMContent.
    pose proof (_createContent_consistent p Hc) as Hq.
    destruct (_content (_createContent p)) as [ct |] eqn:E; [| exact Hq].
    apply _update_consistent. destruct Hq as [H1 H2]. split; [exact H1 |].
    intros ct' Hct' Ha. simpl in Hct'. simplify_eq. apply (H2 ct E Ha).
  - destruct (_map p) eqn:Em; apply _update_consistent; [| exact Hc].
    destruct Hc as [H1 H2]. split; [eauto | exact H2].
  - apply remove_consistent.
Qed.

Lemma reachable_consistent (p : Popup) : reachable p -> consistent p.
Proof.
  induction 1 as [o | c p _ IH].
  - split; [intros [? ?]; discriminate | intros ? ?; discriminate].
  - apply run_consistent, IH.
Qed.

(** *** Detaching *)

Lemma remove_returns (p : Popup) :
  exists p', remove p = Normal p' /\ isOpen p' = false /\
             _container p' = None.
Proof.
  destruct p as [m o ct cn cb tp l ps ef].
  unfold remove. eexists. split; [reflexivity |].
  destruct ct, cn, m; split; reflexivity.
Qed.

(** C1, as the code has it: a call of [remove] on a popup that is not
    added to a view returns without throwing and leaves every field of
    the popup as it was, but it does fire [close], as every call of
    [remove] does. *)
Theorem remove_detached (p : Popup) :
  reachable p -> isOpen p = false ->
  remove p = Normal (emit (fire "close") p).
Proof.
  intros Hr Ho. destruct (reachable_consistent p Hr) as [H1 H2].
  destruct p as [m o ct cn cb tp l ps ef].
  unfold isOpen in Ho. unfold remove. simpl in *.
  destruct m; [discriminate |].
  destruct cn; [destruct H1 as [? ?]; [eauto | discriminate] |].
  destruct ct as [[a ch] |]; [| reflexivity].
  destruct a.
  - destruct (H2 _ eq_refl eq_refl) as [? ?]; discriminate.
  - reflexivity.
Qed.

(** *** Open and closed *)

Lemma isOpen_update (p : Popup) : isOpen (state_of (_update p)) = isOpen p.
Proof. unfold isOpen. destruct (_update_frame p) as (-> & _). reflexivity. Qed.

Lemma isOpen_createContent (p : Popup) : isOpen (_createContent p) = isOpen p.
Proof.
  destruct p as [m o ct cn cb tp l ps ef]. unfold isOpen, _createContent.
  destruct ct; simpl; destruct (closeButton o); reflexivity.
Qed.

Lemma isOpen_setDOMContent (n : DomNode) (p : Popup) :
  isOpen (state_of (setDOMContent n p)) = isOpen p.
Proof.
  unfold setDOMContent.
  destruct (_content (_createContent p)); simpl;
    [rewrite isOpen_update |]; apply isOpen_createContent.
Qed.

(** C2, as the code has it: [isOpen] is true exactly when the popup is
    added to a view, whether or not it has a location and a content: it
    is false for a new popup, true after [addTo], false after [remove]
    (or a click that closes the popup), and no other call changes it. *)
Theorem isOpen_attached (p : Popup) :
  (isOpen p = true <-> is_Some (_map p)) /\
  (forall o, isOpen (new_Popup o) = false) /\
  (forall c, isOpen (state_of (run c p)) =
     match c with
     | call_addTo _ => true
     | call_remove | event_click => false
     | _ => isOpen p
     end).
Proof.
  split; [| split].
  - unfold isOpen. destruct (_map p); split; eauto; try discriminate.
    intros [? ?]; discriminate.
  - reflexivity.
  - intros c. destruct c; cbn [run].
    + unfold addTo. rewrite state_of_and_then.
      match goal with |- context [_update ?q] =>
        pose proof (isOpen_update q) as Hq;
        assert (Hm : isOpen q = true)
          by (destruct (closeOnClick (options _)); reflexivity);
        destruct (_update q) as [r | r]
      end; rewrite <- Hm, <- Hq; reflexivity.
    + destruct (remove_returns p) as (p' & -> & H & _). exact H.
    + unfold setLngLat. destruct (LngLat_convert lnglat); [| reflexivity].
      rewrite isOpen_update. reflexivity.
    + apply isOpen_setDOMContent.
    + apply isOpen_setDOMContent.
    + apply isOpen_setDOMContent.
    + destruct (_map p) eqn:Em; rewrite isOpen_update;
        unfold isOpen; simpl; rewrite ?Em; reflexivity.
    + unfold _onClickClose.
      destruct (remove_returns p) as (p' & -> & H & _). exact H.
Qed.

(** *** Placement *)


Lemma choose_anchor_auto (map : Map) (pos : Point) (t : OffsetTable)
    (c : ContainerEl) (ct : ContentEl) (o : PopupOptions) :
  anchor o = None \/ anchor o = Some "" ->
  choose_anchor map pos t c ct o =
  autoAnchor pos t (inject_Z (offsetWidth c ct)) (inject_Z (offsetHeight c ct))
             (width (transform map)) (height (transform map)).
Proof. intros [E | E]; unfold choose_anchor; rewrite E; reflexivity. Qed.






Lemma place_lngLat (map : Map) (lngLat : LngLat) (q : Popup) :
  _lngLat (state_of (place map lngLat q)) =
  Some (if renderWorldCopies (transform map)
        then smartWrap lngLat (_pos q) (transform map) else lngLat).
Proof.
  destruct q as [m o ct cn cb tp l ps ef]. unfold place. simpl.
  destruct cn; [| reflexivity]. destruct ct; [| reflexivity].
  match goal with |- context [add_round ?t ?a] =>
    destruct (add_round t a) end; reflexivity.
Qed.






(** *** Location *)

Lemma _update_lngLat (q : Popup) (l : LngLat) :
  _lngLat q = Some l ->
  _lngLat (state_of (_update q)) = Some l \/
  exists map, _map q = Some map /\ is_Some (_content q) /\
    renderWorldCopies (transform map) = true /\
    _lngLat (state_of (_update q)) =
      Some (smartWrap l (_pos q) (transform map)).
Proof.
  intros El. unfold _update. rewrite El.
  destruct (_map q) as [map |] eqn:Em; [| left; exact El].
  destruct (_content q) as [ct |] eqn:Et; [| left; exact El].
  rewrite state_of_and_then.
  destruct (ensure_container_frame map ct q Et)
    as (_ & _ & Hl & Hp & _).
  destruct (ensure_container map ct q) as [r | r]; simpl in *.
  - rewrite place_lngLat, Hp.
    destruct (renderWorldCopies (transform map)) eqn:Ew; [right | left; auto].
    exists map. eauto.
  - left. congruence.
Qed.

(** C9: [getLngLat] right after [setLngLat] returns the coordinate that
    was set; only when the popup is added to a view that renders world
    copies may the longitude differ, by a multiple of 360 degrees.  When
    the popup is not added to such a view, or has no content yet, the
    coordinate is returned as it was set. *)
Theorem setLngLat_getLngLat (p : Popup) (lnglat : LngLatLike) (l : LngLat) :
  smartWrap_wraps ->
  LngLat_convert lnglat = Some l ->
  exists l',
    getLngLat (state_of (setLngLat lnglat p)) = Some l' /\
    lat l' = lat l /\
    (exists k : Z, lng l' == lng l + 360 * inject_Z k) /\
    (wraps p = false \/ _content p = None -> l' = l).
Proof.
  intros Hw Hc. unfold setLngLat, getLngLat. rewrite Hc.
  match goal with |- context [_update ?q] =>
    destruct (_update_lngLat q l eq_refl)
      as [-> | (map & Em & [ct Et] & Ew & ->)] end.
  - exists l. split; [reflexivity |]. split; [reflexivity |].
    split; [exists 0%Z; unfold inject_Z; ring | auto].
  - destruct (Hw l None (transform map)) as [Hlat Hlng].
    eexists. split; [reflexivity |].
    split; [exact Hlat |]. split; [exact Hlng |].
    simpl in Em, Et. unfold wraps. rewrite Em, Ew, Et.
    intros [? | ?]; discriminate.
Qed.

End PopupFacts.


(** ** More on the widget *)

Section PopupMore.

Context {V : View} {B : Browser}.

(** *** Field by field through [_update] *)

Lemma add_class_names_container (names : list string) (p : Popup)
    (c : ContainerEl) :
  _container p = Some c ->
  exists c', _container (state_of (add_class_names names p)) = Some c' /\
             container_parent c' = container_parent c /\
             style_transform c' = style_transform c.
Proof.
  revert p c. induction names as [| name names IH]; intros p c Ec; simpl.
  - eauto.
  - rewrite Ec.
    destruct (DOM.classList_add (classList c) name) as [l |]; simpl.
    + match goal with |- context [add_class_names names ?q] =>
        destruct (IH q _ eq_refl) as (c' & H1 & H2 & H3) end.
      eauto.
    + eauto.
Qed.

(** What [ensure_container] leaves in each field. *)
Lemma ensure_container_fields (map : Map) (content : ContentEl) (p : Popup) :
  _content p = Some content ->
  let q := state_of (ensure_container map content p) in
  _content q = Some (match _container p with
                     | Some _ => content
                     | None => DOM.attach_content content
                     end) /\
  _tip q = (match _container p with Some _ => _tip p | None => true end) /\
  exists c', _container q = Some c' /\
    container_parent c' = match _container p with
                          | Some c => container_parent c
                          | None => Some (getContainer map)
                          end.
Proof.
  intros Et. cbv zeta. unfold ensure_container.
  destruct (_container p) as [c |] eqn:Ec; simpl.
  - rewrite Ec. eauto.
  - destruct (String.eqb (className (options p)) ""); simpl; [eauto |].
    match goal with |- context [add_class_names ?n ?q] =>
      destruct (add_class_names_frame n q)
        as [(_ & _ & H3 & _ & H5 & _) _];
      destruct (add_class_names_container n q _ eq_refl)
        as (c' & G1 & G2 & _)
    end.
    simpl in *. rewrite H3, H5. eauto.
Qed.

(** What [place] leaves in each field. *)
Lemma place_fields (map : Map) (lngLat : LngLat) (q : Popup)
    (c : ContainerEl) :
  _container q = Some c ->
  let q' := state_of (place map lngLat q) in
  _content q' = _content q /\ _tip q' = _tip q /\
  is_Some (_lngLat q') /\
  exists c', _container q' = Some c' /\
             container_parent c' = container_parent c.
Proof.
  destruct q as [m o ct cn cb tp l ps ef]. simpl. intros ->.
  unfold place. simpl.
  destruct ct as [t |]; [| simpl; eauto 10].
  match goal with |- context [add_round ?t ?a] =>
    destruct (add_round t a) end; simpl; eauto 10.
Qed.

(** What [_update] leaves in each field of a ready popup. *)
Lemma _update_fields (p : Popup) (map : Map) (lngLat : LngLat)
    (content : ContentEl) :
  _map p = Some map -> _lngLat p = Some lngLat ->
  _content p = Some content ->
  let q := state_of (_update p) in
  _content q = Some (match _container p with
                     | Some _ => content
                     | None => DOM.attach_content content
                     end) /\
  _tip q = (match _container p with Some _ => _tip p | None => true end) /\
  is_Some (_lngLat q) /\
  exists c', _container q = Some c' /\
    container_parent c' = match _container p with
                          | Some c => container_parent c
                          | None => Some (getContainer map)
                          end.
Proof.
  intros Em El Et. cbv zeta. unfold _update. rewrite Em, El, Et.
  rewrite state_of_and_then.
  destruct (ensure_container_fields map content p Et)
    as (H1 & H2 & c1 & H3 & H4).
  destruct (ensure_container_frame map content p Et)
    as (_ & _ & Hl & _).
  destruct (ensure_container map content p) as [q | q]; simpl in *.
  - destruct (place_fields map lngLat q c1 H3) as (G1 & G2 & G3 & c2 & G4 & G5).
    rewrite G1, G2, H1, H2. repeat split; [exact G3 |].
    exists c2. split; [exact G4 | congruence].
  - rewrite H1, H2, Hl, El. repeat split; eauto.
Qed.

Lemma ready_cases (p : Popup) :
  (exists map lngLat content,
     _map p = Some map /\ _lngLat p = Some lngLat /\
     _content p = Some content) \/ _update p = Normal p.
Proof.
  destruct (ready_dec p) as [([m Hm] & [l Hl] & [t Ht]) | H].
  - left. eauto 10.
  - right. now apply _update_not_ready.
Qed.

(** *** The invariant of a shown popup *)

Lemma _update_shown_consistent (p : Popup) :
  shown_consistent p -> shown_consistent (state_of (_update p)).
Proof.
  intros Hs.
  destruct (ready_cases p) as [(map & l & t & Em & El & Et) | ->];
    [| exact Hs].
  destruct (_update_fields p map l t Em El Et)
    as (H1 & H2 & H3 & c' & H4 & _).
  destruct (_update_frame p) as (Hm & _).
  split.
  - intros _. rewrite Hm, Em, H1, H2. split; [eauto |]. split; [exact H3 |].
    destruct Hs as [Hs _].
    destruct (_container p) as [c |].
    + destruct Hs as (_ & _ & Htip & ct & Hct & Ha); [eauto |].
      split; [exact Htip |]. exists t. split; [reflexivity |]. congruence.
    + split; [reflexivity |]. eexists. split; reflexivity.
  - rewrite H4. discriminate.
Qed.

Lemma remove_shown_consistent (p : Popup) :
  shown_consistent (state_of (remove p)).
Proof.
  destruct p as [m o ct cn cb tp l ps ef]. unfold remove, shown_consistent.
  destruct ct as [ct |], cn, m; simpl;
    (split; [intros [? ?]; discriminate
            | intros _ ? ?; try discriminate; simplify_eq; reflexivity]).
Qed.

Lemma _createContent_shown_consistent (p : Popup) :
  shown_consistent p -> shown_consistent (_createContent p).
Proof.
  destruct p as [m o ct cn cb tp l ps ef].
  intros [H1 _]. unfold _createContent, shown_consistent. simpl in *.
  destruct ct as [ct |]; simpl in *;
    destruct (closeButton o); destruct cn as [c |]; simpl in *;
    (split;
     [ intros Hc; try (destruct Hc; discriminate);
       destruct (H1 Hc) as (Hm & Hl & Ht & _); eauto 10
     | intros Hc ? ?; try discriminate; simplify_eq; reflexivity ]).
Qed.

Lemma appendChild_shown_consistent (p : Popup) (content : ContentEl)
    (n : DomNode) :
  shown_consistent p -> _content p = Some content ->
  shown_consistent
    (set_content (Some (DOM.content_appendChild content n)) p).
Proof.
  destruct p as [m o ct cn cb tp l ps ef]. simpl.
  intros [H1 H2] ->. split; simpl.
  - intros Hc. destruct (H1 Hc) as (Hm & Hl & Ht & c' & [= <-] & Ha).
    eauto 10.
  - intros Hc ? [= <-]. simpl. now apply H2.
Qed.

Lemma setDOMContent_shown_consistent (n : DomNode) (p : Popup) :
  shown_consistent p -> shown_consistent (state_of (setDOMContent n p)).
Proof.
  intros Hs. unfold setDOMContent.
  pose proof (_createContent_shown_consistent p Hs) as Hq.
  destruct (_content (_createContent p)) as [ct |] eqn:E; [| exact Hq].
  apply _update_shown_consistent. now apply appendChild_shown_consistent.
Qed.

Lemma run_shown_consistent (c : Call) (p : Popup) :
  shown_consistent p -> shown_consistent (state_of (run c p)).
Proof.
  intros Hs. destruct c; cbn [run].
  - unfold addTo. rewrite state_of_and_then.
    match goal with |- context [_update ?q] =>
      assert (Hq : shown_consistent q);
      [| pose proof (_update_shown_consistent q Hq);
         destruct (_update q); auto]
    end.
    destruct p as [m o ct cn cb tp l ps ef]. destruct Hs as [H1 H2].
    destruct (closeOnClick _); simpl in *;
      (split; [intros Hc; destruct (H1 Hc) as (_ & ? & ? & ?); eauto
              | exact H2]).
  - apply remove_shown_consistent.
  - unfold setLngLat. destruct (LngLat_convert lnglat); [| exact Hs].
    apply _update_shown_consistent.
    destruct p as [m o ct cn cb tp l0 ps ef]. destruct Hs as [H1 H2].
    split; simpl in *; [| exact H2].
    intros Hc; destruct (H1 Hc) as (? & _ & ? & ?); eauto.
  - now apply setDOMContent_shown_consistent.
  - now apply setDOMContent_shown_consistent.
  - now apply setDOMContent_shown_consistent.
  - destruct (_map p) eqn:Em; apply _update_shown_consistent; [| exact Hs].
    destruct p as [m0 o ct cn cb tp l ps ef]. destruct Hs as [H1 H2].
    split; simpl in *; [| exact H2].
    intros Hc; destruct (H1 Hc) as (_ & ? & ? & ?); eauto.
  - apply remove_shown_consistent.
Qed.

(** X3: in every state the constructor, the methods and the view's
    events can lead to, a popup that has a container is added to a view
    and has a location, a tip and a content that sits in the container;
    a popup without a container has its content, if any, in no element. *)
Theorem reachable_shown_consistent (p : Popup) :
  reachable p -> shown_consistent p.
Proof.
  induction 1 as [o | c p _ IH].
  - split; [intros [? ?]; discriminate | intros _ ? ?; discriminate].
  - now apply run_shown_consistent.
Qed.

(** *** An anchor given in the options *)



(** *** Class names *)

Lemma add_class_names_empty_token (names : list string) (p : Popup) :
  In "" names -> is_Some (_container p) ->
  exists q, add_class_names names p = Abrupt q.
Proof.
  revert p. induction names as [| name names IH]; intros p Hin [c Ec];
    [destruct Hin |]. simpl. rewrite Ec.
  destruct (DOM.classList_add (classList c) name) as [l |] eqn:El;
    [| eauto].
  destruct Hin as [-> | Hin].
  - unfold DOM.classList_add in El. simpl in El. discriminate El.
  - apply IH; [exact Hin | simpl; eauto].
Qed.

(** With an empty token in the class name, the [_update] that makes the
    container throws once the container is made and the content is put
    into it; no position is recorded and no transform is set. *)
Lemma _update_empty_class_token (p : Popup) (map : Map) (lngLat : LngLat)
    (content : ContentEl) :
  _map p = Some map -> _lngLat p = Some lngLat ->
  _content p = Some content -> _container p = None ->
  className (options p) <> "" ->
  In "" (DOM.split_space (className (options p))) ->
  exists q c',
    _update p = Abrupt q /\
    _container q = Some c' /\ style_transform c' = None /\
    _content q = Some (DOM.attach_content content) /\
    _pos q = _pos p /\ _lngLat q = _lngLat p.
Proof.
  intros Em El Et Ec Hne Hin. unfold _update. rewrite Em, El, Et.
  destruct (ensure_container_fields map content p Et) as (H1 & _).
  destruct (ensure_container_frame map content p Et)
    as (_ & _ & Hl & Hp & _).
  rewrite Ec in H1.
  assert (Ha : exists q c', ensure_container map content p = Abrupt q /\
            _container q = Some c' /\ style_transform c' = None).
  { unfold ensure_container. rewrite Ec. simpl.
    destruct (String.eqb_spec (className (options p)) "");
      [contradiction |].
    match goal with |- context [add_class_names ?n ?r] =>
      destruct (add_class_names_empty_token n r Hin) as [q Hq];
      [simpl; eauto |];
      destruct (add_class_names_container n r _ eq_refl)
        as (c' & G1 & _ & G3)
    end.
    rewrite Hq in *. simpl in *. eauto. }
  destruct Ha as (q & c' & Hq & Hc & Hs). rewrite Hq in *. simpl in *.
  exists q, c'. rewrite Hl. auto 10.
Qed.

(** X6: when the class name of the options has an empty token (it starts
    or ends with a space, or has two spaces in a row), [addTo] on a popup
    that has a location and a content throws: the popup is left open and
    subscribed, with a container that has no transform, and [open] is
    not fired. *)
Theorem addTo_empty_class_token (map : Map) (p : Popup) (lngLat : LngLat)
    (content : ContentEl) :
  _lngLat p = Some lngLat -> _content p = Some content ->
  _container p = None ->
  className (options p) <> "" ->
  In "" (DOM.split_space (className (options p))) ->
  exists q c',
    addTo map p = Abrupt q /\
    isOpen q = true /\
    _container q = Some c' /\ style_transform c' = None /\
    effects q =
      (effects p ++ [map_on map "move" H_update]
       ++ (if closeOnClick (options p)
           then [map_on map "click" H_onClickClose] else []))%list.
Proof.
  intros El Et Ec Hne Hin. unfold addTo.
  match goal with |- context [_update ?q0] => set (q := q0) end.
  assert (Hq : _map q = Some map /\ _lngLat q = Some lngLat /\
               _content q = Some content /\ _container q = None /\
               options q = options p /\
               effects q =
                 (effects p ++ [map_on map "move" H_update]
                  ++ (if closeOnClick (options p)
                      then [map_on map "click" H_onClickClose]
                      else []))%list).
  { unfold q. destruct p as [m o ct cn cb tp l ps ef]. simpl in *.
    destruct (closeOnClick o); simpl; rewrite <- ?app_assoc, ?app_nil_r;
      auto 10. }
  destruct Hq as (Em & El' & Et' & Ec' & Ho & He).
  rewrite <- Ho in Hne, Hin.
  destruct (_update_empty_class_token q map lngLat content
              Em El' Et' Ec' Hne Hin) as (r & c' & Hr & Hc & Hs & _).
  pose proof (_update_frame q) as (Hm & _ & Hef & _).
  rewrite Hr in *. simpl in *.
  exists r, c'. unfold isOpen. rewrite Hm, Em, Hef.
  repeat split; auto.
Qed.

(** *** Content *)

(** X7: [setDOMContent] replaces the content: whatever the popup held,
    and whether the call returns or throws, the content element
    afterwards holds the close button (unless the options turn it off)
    followed by the given node and nothing else; it is in the container
    exactly when there is a container. *)
Theorem setDOMContent_replaces (n : DomNode) (p : Popup) :
  exists content,
    _content (state_of (setDOMContent n p)) = Some content /\
    content_children content =
      (if closeButton (options p) then [CloseButton; n] else [n]) /\
    content_attached content =
      match _container (state_of (setDOMContent n p)) with
      | Some _ => true
      | None => false
      end.
Proof.
  unfold setDOMContent.
  assert (Hc : exists ct,
            _content (_createContent p) = Some ct /\
            content_children ct =
              (if closeButton (options p) then [CloseButton] else []) /\
            content_attached ct =
              match _container (_createContent p) with
              | Some _ => true
              | None => false
              end).
  { destruct p as [m o ct cn cb tp l ps ef]. unfold _createContent.
    destruct ct; simpl; destruct (closeButton o); simpl; eauto. }
  destruct Hc as (ct & Hct & Hch & Hat). rewrite Hct.
  match goal with |- context [_update ?q0] => set (q := q0) end.
  assert (Hq : _content q = Some (DOM.content_appendChild ct n))
    by reflexivity.
  assert (Hqc : _container q = _container (_createContent p))
    by reflexivity.
  assert (Hch' : content_children (DOM.content_appendChild ct n) =
                 (if closeButton (options p) then [CloseButton; n] else [n])).
  { simpl. rewrite Hch. destruct (closeButton (options p)); reflexivity. }
  destruct (ready_cases q) as [(map & l & t & Em & El & Et) | ->].
  - rewrite Hq in Et. injection Et as <-.
    destruct (_update_fields q map l _ Em El Hq) as (H1 & _ & _ & c' & H4 & _).
    rewrite H1, H4, Hqc.
    destruct (_container (_createContent p)); simpl in *;
      eexists; (split; [reflexivity |]); split; auto.
  - cbn [state_of]. rewrite Hq, Hqc.
    eexists. split; [reflexivity |]. split; auto.
Qed.

(** *** Subscriptions and notifications *)

Lemma effects_update (p : Popup) : effects (state_of (_update p)) = effects p.
Proof. destruct (_update_frame p) as (_ & _ & -> & _). reflexivity. Qed.

Lemma effects_createContent (p : Popup) :
  effects (_createContent p) = effects p.
Proof.
  destruct p as [m o ct cn cb tp l ps ef]. unfold _createContent.
  destruct ct; simpl; destruct (closeButton o); reflexivity.
Qed.

Lemma effects_setDOMContent (n : DomNode) (p : Popup) :
  effects (state_of (setDOMContent n p)) = effects p.
Proof.
  unfold setDOMContent.
  destruct (_content (_createContent p)); simpl;
    [rewrite effects_update |]; apply effects_createContent.
Qed.

(** X8: only [addTo], [remove] and a closing click touch the event
    emitters: setting the location or the content, and the view's
    [move] event, subscribe to nothing, unsubscribe from nothing and
    fire nothing, whether they return or throw. *)
Theorem setters_emit_nothing (c : Call) (p : Popup) :
  (forall map, c <> call_addTo map) -> detaches c = false ->
  effects (state_of (run c p)) = effects p.
Proof.
  intros Ha Hd. destruct c; cbn [run]; try discriminate Hd.
  - now destruct (Ha map).
  - unfold setLngLat. destruct (LngLat_convert lnglat); [| reflexivity].
    now rewrite effects_update.
  - apply effects_setDOMContent.
  - apply effects_setDOMContent.
  - apply effects_setDOMContent.
  - destruct (_map p); now rewrite effects_update.
Qed.

Lemma effects_addTo (map : Map) (p : Popup) :
  effects (state_of (addTo map p)) =
  (effects p ++ [map_on map "move" H_update]
   ++ (if closeOnClick (options p)
       then [map_on map "click" H_onClickClose] else [])
   ++ match addTo map p with
      | Normal _ => [fire "open"]
      | Abrupt _ => []
      end)%list.
Proof.
  unfold addTo. rewrite state_of_and_then.
  match goal with |- context [_update ?q] =>
    pose proof (effects_update q) as Hq; destruct (_update q) as [r | r]
  end; simpl in *; rewrite Hq;
    destruct p as [m o ct cn cb tp l ps ef]; simpl;
    destruct (closeOnClick o); simpl;
    rewrite <- ?app_assoc; simpl; rewrite ?app_nil_r; reflexivity.
Qed.

(** X9: [addTo(map)] followed by [remove()] subscribes to [move] (and to
    [click] unless the options turn that off), fires [open] if [addTo]
    returned, then unsubscribes both listeners from the same view and
    fires [close]; the popup is then closed and has no container. *)
Theorem addTo_remove (map : Map) (p : Popup) :
  exists r,
    remove (state_of (addTo map p)) = Normal r /\
    isOpen r = false /\ _container r = None /\
    effects r =
      (effects p ++ [map_on map "move" H_update]
       ++ (if closeOnClick (options p)
           then [map_on map "click" H_onClickClose] else [])
       ++ match addTo map p with
          | Normal _ => [fire "open"]
          | Abrupt _ => []
          end
       ++ [map_off map "move" H_update; map_off map "click" H_onClickClose;
           fire "close"])%list.
Proof.
  pose proof (effects_addTo map p) as He.
  assert (Hm : _map (state_of (addTo map p)) = Some map).
  { unfold addTo. rewrite state_of_and_then.
    match goal with |- context [_update ?q] =>
      destruct (_update_frame q) as (Hq & _);
      assert (Hq' : _map q = Some map)
        by (destruct (closeOnClick (options _)); reflexivity);
      destruct (_update q) as [r | r]
    end; simpl in *; congruence. }
  destruct (state_of (addTo map p)) as [m o ct cn cb tp l ps ef].
  simpl in *. subst m ef. unfold remove.
  eexists. split; [reflexivity |].
  destruct ct, cn; simpl; (split; [reflexivity |]); (split; [reflexivity |]);
    repeat first [rewrite <- app_assoc | progress simpl]; reflexivity.
Qed.

(** *** Closing and opening again *)

Lemma remove_keeps (p : Popup) :
  _lngLat (state_of (remove p)) = _lngLat p /\
  _container (state_of (remove p)) = None /\
  _content (state_of (remove p)) = DOM.remove_content <$> _content p.
Proof.
  destruct p as [m o ct cn cb tp l ps ef]. unfold remove.
  destruct ct, cn, m; repeat split.
Qed.

(** X10: [remove] keeps the location and the content, so a popup that
    has both is rendered again by a later [addTo], with no need to set
    them again: it is open, has a container in the new view's element,
    and its content, with the children it had, is in that container. *)
Theorem remove_addTo_renders (map : Map) (p : Popup) (l : LngLat)
    (content : ContentEl) :
  _lngLat p = Some l -> _content p = Some content ->
  let q := state_of (addTo map (state_of (remove p))) in
  isOpen q = true /\ is_Some (_lngLat q) /\
  (exists c, _container q = Some c /\
             container_parent c = Some (getContainer map)) /\
  exists content', _content q = Some content' /\
    content_attached content' = true /\
    content_children content' = content_children content.
Proof.
  intros El Et. cbv zeta.
  destruct (remove_keeps p) as (Hl & Hc & Hct).
  rewrite El in Hl. rewrite Et in Hct. simpl in Hct.
  set (p0 := state_of (remove p)) in *.
  unfold addTo. rewrite state_of_and_then.
  match goal with |- context [_update ?q0] => set (q := q0) end.
  assert (Em : _map q = Some map)
    by (unfold q; destruct (closeOnClick (options _)); reflexivity).
  assert (El' : _lngLat q = Some l)
    by (unfold q; destruct (closeOnClick (options _)); exact Hl).
  assert (Et' : _content q = Some (DOM.remove_content content))
    by (unfold q; destruct (closeOnClick (options _)); exact Hct).
  assert (Ec' : _container q = None)
    by (unfold q; destruct (closeOnClick (options _)); exact Hc).
  destruct (_update_fields q map l _ Em El' Et') as (H1 & _ & H3 & c' & H4 & H5).
  destruct (_update_frame q) as (Hm & _).
  rewrite Ec' in H1, H5.
  assert (Hgoal :
    isOpen (state_of (_update q)) = true /\
    is_Some (_lngLat (state_of (_update q))) /\
    (exists c, _container (state_of (_update q)) = Some c /\
               container_parent c = Some (getContainer map)) /\
    exists content', _content (state_of (_update q)) = Some content' /\
      content_attached content' = true /\
      content_children content' = content_children content).
  { unfold isOpen. rewrite Hm, Em. repeat split; eauto. }
  destruct (_update q) as [r | r]; exact Hgoal.
Qed.

(** *** The element the container is in *)

Lemma _update_container_parent (p : Popup) (c : ContainerEl) :
  _container p = Some c ->
  exists c', _container (state_of (_update p)) = Some c' /\
             container_parent c' = container_parent c.
Proof.
  intros Ec.
  destruct (ready_cases p) as [(map & l & t & Em & El & Et) | ->];
    [| simpl; eauto].
  destruct (_update_fields p map l t Em El Et) as (_ & _ & _ & c' & H4 & H5).
  rewrite Ec in H5. eauto.
Qed.

Lemma _createContent_container (p : Popup) :
  _container (_createContent p) = _container p.
Proof.
  destruct p as [m o ct cn cb tp l ps ef]. unfold _createContent.
  destruct ct; simpl; destruct (closeButton o); reflexivity.
Qed.

Lemma setDOMContent_container_parent (n : DomNode) (p : Popup)
    (c : ContainerEl) :
  _container p = Some c ->
  exists c', _container (state_of (setDOMContent n p)) = Some c' /\
             container_parent c' = container_parent c.
Proof.
  intros Ec. unfold setDOMContent.
  pose proof (_createContent_container p) as Hc. rewrite Ec in Hc.
  destruct (_content (_createContent p)); [| simpl; eauto].
  now apply _update_container_parent.
Qed.

(** X11: once made, the container stays in the element it was put in
    until the popup is removed: no other call moves it, not even
    [addTo] with another view, which leaves the container in the first
    view's element. *)
Theorem container_stays (c : Call) (p : Popup) (container : ContainerEl) :
  _container p = Some container -> detaches c = false ->
  exists container',
    _container (state_of (run c p)) = Some container' /\
    container_parent container' = container_parent container.
Proof.
  intros Ec Hd. destruct c; cbn [run]; try discriminate Hd.
  - unfold addTo. rewrite state_of_and_then.
    match goal with |- context [_update ?q] =>
      destruct (_update_container_parent q container) as (c' & H1 & H2);
      [destruct (closeOnClick (options _)); exact Ec |];
      destruct (_update q); simpl in *; eauto
    end.
  - unfold setLngLat. destruct (LngLat_convert lnglat); [| simpl; eauto].
    now apply _update_container_parent.
  - now apply setDOMContent_container_parent.
  - now apply setDOMContent_container_parent.
  - now apply setDOMContent_container_parent.
  - destruct (_map p); now apply _update_container_parent.
Qed.

End PopupMore.

(** ** The theorems at concrete inputs *)

Ltac by_evaluation := vm_compute; reflexivity.

Lemma demo_wrap_wraps : smartWrap_wraps (V := Demo.view).
Proof.
  intros l prior t. split; [reflexivity |].
  exists (- Qfloor ((lng l + 180) / 360))%Z. simpl.
  rewrite inject_Z_opp. ring.
Qed.

Lemma remove_detached_witness :
  remove Demo.closed = Normal (emit (fire "close") Demo.closed).
Proof.
  apply (remove_detached (V := Demo.view) (B := Demo.browser) Demo.closed).
  - exact (reachable_run (V := Demo.view) (B := Demo.browser) call_remove _
             (reachable_new _)).
  - reflexivity.
Defined.

(** C1, as stated, fails: the popup [Demo.closed] is not added to a
    view, and a call of [remove] on it fires [close] once more. *)
Lemma remove_detached_fires_close :
  isOpen Demo.closed = false /\
  effects Demo.closed = [fire "close"] /\
  effects (state_of (remove Demo.closed)) = [fire "close"; fire "close"] /\
  remove Demo.closed <> Normal Demo.closed.
Proof.
  repeat split. intros H. apply (f_equal state_of) in H.
  apply (f_equal effects) in H. discriminate H.
Qed.

Lemma isOpen_attached_witness :
  isOpen (state_of (run (V := Demo.view) (B := Demo.browser) (call_addTo (V := Demo.view) Demo.world)
                        Demo.fresh)) = true.
Proof.
  exact (proj2 (proj2 (isOpen_attached (V := Demo.view) (B := Demo.browser) Demo.fresh))
               (call_addTo (V := Demo.view) Demo.world)).
Defined.

(** C2, as stated, fails: the popup [Demo.added] is open, and has
    neither a location nor a content. *)
Lemma isOpen_without_location_or_content :
  isOpen Demo.added = true /\
  _lngLat Demo.added = None /\ _content Demo.added = None /\
  ~ (isOpen Demo.added = true <->
     is_Some (_map Demo.added) /\ is_Some (_lngLat Demo.added) /\
     is_Some (_content Demo.added)).
Proof.
  repeat split. intros [H _].
  destruct (H eq_refl) as (_ & [l Hl] & _). discriminate Hl.
Qed.

Lemma _update_noop_unless_ready_witness :
  _update (V := Demo.view) (B := Demo.browser) Demo.fresh = Normal Demo.fresh.
Proof.
  apply (proj1 (_update_noop_unless_ready (V := Demo.view) (B := Demo.browser) Demo.fresh)).
  intros ([m Hm] & _). discriminate Hm.
Defined.


Lemma setLngLat_getLngLat_witness :
  exists l',
    getLngLat (state_of (setLngLat (V := Demo.view) (B := Demo.browser) (550, 10) Demo.shown))
    = Some l' /\
    lat l' = 10 /\
    (exists k : Z, lng l' == 550 + 360 * inject_Z k) /\
    (wraps Demo.shown = false \/ _content Demo.shown = None ->
     l' = mkLngLat 550 10).
Proof.
  apply (setLngLat_getLngLat (V := Demo.view) (B := Demo.browser) Demo.shown (550, 10)
           (mkLngLat 550 10) demo_wrap_wraps).
  reflexivity.
Defined.

Example setLngLat_wrapped_ex :
  getLngLat (state_of (setLngLat (V := Demo.view) (B := Demo.browser) (550, 10) Demo.shown))
  = Some (mkLngLat (- (170)) 10).
Proof. reflexivity. Qed.

Lemma reachable_shown_consistent_witness : shown_consistent Demo.shown.
Proof.
  apply (reachable_shown_consistent (V := Demo.view) (B := Demo.browser)).
  assert (E : Demo.shown =
              state_of (run (V := Demo.view) (B := Demo.browser)
                (call_addTo (V := Demo.view) Demo.world)
                (state_of (run (V := Demo.view) (B := Demo.browser)
                   (call_setText "hi")
                   (state_of (run (V := Demo.view) (B := Demo.browser)
                      (call_setLngLat (V := Demo.view) (190, 10))
                      Demo.fresh))))))
    by (vm_compute; reflexivity).
  rewrite E. do 3 apply reachable_run.
  exact (reachable_new (V := Demo.view) (B := Demo.browser)
           (mkPopupOptions None None None None None)).
Defined.



Lemma addTo_empty_class_token_witness :
  exists q c',
    addTo (V := Demo.view) (B := Demo.browser) Demo.world Scenes.spaced
      = Abrupt q /\
    isOpen q = true /\
    _container q = Some c' /\ style_transform c' = None /\
    effects q = [map_on (H := Demo.view) Demo.world "move" H_update;
                 map_on (H := Demo.view) Demo.world "click" H_onClickClose].
Proof.
  assert (H1 : _lngLat Scenes.spaced = Some (mkLngLat 190 10))
    by by_evaluation.
  assert (H2 : _content Scenes.spaced
               = Some (mkContentEl false [CloseButton; TextNode "hi"]))
    by by_evaluation.
  assert (H3 : _container Scenes.spaced = None) by by_evaluation.
  assert (H4 : className (options Scenes.spaced) <> "")
    by (vm_compute; intros H; discriminate H).
  assert (H5 : In "" (DOM.split_space (className (options Scenes.spaced))))
    by (vm_compute; tauto).
  pose proof (addTo_empty_class_token (V := Demo.view) (B := Demo.browser)
                Demo.world _ _ _ H1 H2 H3 H4 H5) as H.
  vm_compute in H. vm_compute. exact H.
Defined.

Lemma setters_emit_nothing_witness :
  effects (state_of (run (V := Demo.view) (B := Demo.browser)
                         (call_setText "bye") Demo.shown))
  = effects Demo.shown.
Proof.
  apply (setters_emit_nothing (V := Demo.view) (B := Demo.browser)
           (call_setText "bye") Demo.shown).
  - intros map H. discriminate H.
  - reflexivity.
Defined.

Lemma remove_addTo_renders_witness :
  let q := state_of (addTo (V := Demo.view) (B := Demo.browser)
                           Scenes.other_world
                           (state_of (remove Demo.shown))) in
  isOpen q = true /\ is_Some (_lngLat q) /\
  (exists c, _container q = Some c /\
             container_parent c
             = Some (getContainer (View := Demo.view) Scenes.other_world)) /\
  exists content', _content q = Some content' /\
    content_attached content' = true /\
    content_children content' = [CloseButton; TextNode "hi"].
Proof.
  assert (H1 : _lngLat Demo.shown = Some (mkLngLat (- (170)) 10))
    by by_evaluation.
  assert (H2 : _content Demo.shown
               = Some (mkContentEl true [CloseButton; TextNode "hi"]))
    by by_evaluation.
  exact (remove_addTo_renders (V := Demo.view) (B := Demo.browser)
           Scenes.other_world Demo.shown _ _ H1 H2).
Defined.

Lemma container_stays_witness :
  exists container',
    _container (state_of (run (V := Demo.view) (B := Demo.browser)
                              (call_addTo (V := Demo.view) Scenes.other_world)
                              Demo.shown))
    = Some container' /\
    container_parent container'
    = Some (getContainer (View := Demo.view) Demo.world).
Proof.
  assert (H1 : _container Demo.shown
               = Some (@mkContainerEl Demo.view (Some tt)
                         ["mapboxgl-popup"; "mapboxgl-popup-anchor-bottom"]
                         (Some (mkCssTransform "bottom"
                                  (translate (mkPoint 10 80))))))
    by by_evaluation.
  exact (container_stays (V := Demo.view) (B := Demo.browser)
           (call_addTo (V := Demo.view) Scenes.other_world) Demo.shown _
           H1 eq_refl).
Defined.
